(** * Greenlight movie data layer: a shallow embedding of [internal/data]

    The embedding follows [internal/data/movies.go] (the [Movie] struct,
    [MovieModel.Insert], [MovieModel.Get], [MovieModel.Update],
    [MovieModel.Delete] and [ValidateMovie]) and [SetENV] of
    [cmd/api/main.go].  The PostgreSQL backend reached through [database/sql]
    is modelled as an explicit state: the rows of the [movies] table, a
    possible driver fault, and the log of statements sent to it.  Go's
    [error] results are an inductive type; [nil] is [None] / [inl]. *)

From Stdlib Require Import ZArith List Lia.
From stdpp Require Import base gmap strings list.
Import ListNotations.
Open Scope Z_scope.

(** ** Go integers *)

Definition int32_min : Z := - 2 ^ 31.
Definition int32_max : Z := 2 ^ 31 - 1.

(** Conversion [int32(x)]: two's-complement wrap-around. *)
Definition to_int32 (x : Z) : Z := (x + 2 ^ 31) mod 2 ^ 32 - 2 ^ 31.

(** ** The [Movie] struct *)

(** [Genres []string]: a nil slice ([None]) is distinct from an empty one. *)
Record Movie := mkMovie {
  ID : Z;               (* int64 *)
  CreatedAt : Z;        (* time.Time, as a timestamp *)
  Title : string;
  Year : Z;             (* int32 *)
  Runtime : Z;          (* Runtime, an int32 *)
  Genres : option (list string);
  Version : Z           (* int32 *)
}.

Definition set_Version (m : Movie) (v : Z) : Movie :=
  mkMovie (ID m) (CreatedAt m) (Title m) (Year m) (Runtime m) (Genres m) v.

(** ** Errors *)

(** [ErrRecordNotFound] is the store's own sentinel; [ErrNoRows] is
    [sql.ErrNoRows]; [DriverError] is any other error handed back by the
    driver (connection failure, [pq.Error], ...). *)
Inductive error :=
| ErrRecordNotFound
| ErrNoRows
| DriverError (msg : string).

(** ** The backend *)

(** The statements the store sends, with their bound arguments. *)
Inductive Query :=
| QSelect (id : Z)
    (* SELECT id, created_at, title, year, runtime, genres, version
       FROM movies WHERE id = $1 *)
| QUpdate (title : string) (year runtime : Z) (genres : option (list string)) (id : Z)
    (* UPDATE movies SET title=$1, year=$2, runtime=$3, genres=$4,
       version = version +1 where id=$5 RETURNING version *)
| QDelete (id : Z).
    (* DELETE FROM movies WHERE id = $1 *)

(** What the backend answers: the row of a [QueryRow] (if any), the value
    of a [RETURNING] clause, the affected-row count of an [Exec], or a
    driver error. *)
Inductive Reply :=
| RMovie (row : option Movie)
| RVersion (v : option Z)
| RAffected (n : Z)
| RFail (msg : string).

Record DB := mkDB {
  rows : list Movie;            (* the movies table *)
  fault : option string;        (* Some e: every statement fails with e *)
  issued : list Query           (* statements sent so far, oldest first *)
}.

Definition find_row (id : Z) (rs : list Movie) : option Movie :=
  find (fun r => bool_decide (ID r = id)) rs.

(** PostgreSQL [integer] arithmetic raises on overflow. *)
Definition pg_int4_add1 (v : Z) : option Z :=
  if bool_decide (v + 1 <= int32_max) then Some (v + 1) else None.

Definition update_row (title : string) (year runtime : Z)
    (genres : option (list string)) (r : Movie) : Movie :=
  mkMovie (ID r) (CreatedAt r) title year runtime genres (Version r + 1).

(** Execution of one statement on the table (no fault). *)
Definition exec (q : Query) (rs : list Movie) : list Movie * Reply :=
  match q with
  | QSelect id => (rs, RMovie (find_row id rs))
  | QUpdate t y rt g id =>
      match find_row id rs with
      | None => (rs, RVersion None)
      | Some r =>
          match pg_int4_add1 (Version r) with
          | None => (rs, RFail "integer out of range")
          | Some v =>
              (map (fun r' => if bool_decide (ID r' = id)
                              then update_row t y rt g r' else r') rs,
               RVersion (Some v))
          end
      end
  | QDelete id =>
      (filter (fun r => ID r <> id) rs,
       RAffected (Z.of_nat (length (filter (fun r => ID r = id) rs))))
  end.

(** ** A state monad over the backend *)

Definition M (A : Type) : Type := DB -> A * DB.

Definition ret {A} (a : A) : M A := fun s => (a, s).
Definition bind {A B} (m : M A) (k : A -> M B) : M B :=
  fun s => let (a, s') := m s in k a s'.

Notation "'do' x <- m ; k" := (bind m (fun x => k))
  (at level 200, x name, m at level 100, right associativity).

(** One round trip: the statement is logged and run unless the
    connection is faulty. *)
Definition send (q : Query) : M Reply :=
  fun s =>
    let s1 := mkDB (rows s) (fault s) (issued s ++ [q]) in
    match fault s with
    | Some e => (RFail e, s1)
    | None =>
        let (rs', rep) := exec q (rows s) in
        (rep, mkDB rs' (fault s) (issued s1))
    end.

(** [QueryRow(...).Scan(...)]: no row is [sql.ErrNoRows]. *)
Definition scan_movie (rep : Reply) : Movie + error :=
  match rep with
  | RMovie (Some m) => inl m
  | RMovie None => inr ErrNoRows
  | RFail e => inr (DriverError e)
  | _ => inr (DriverError "unexpected reply")
  end.

Definition scan_version (rep : Reply) : Z + error :=
  match rep with
  | RVersion (Some v) => inl v
  | RVersion None => inr ErrNoRows
  | RFail e => inr (DriverError e)
  | _ => inr (DriverError "unexpected reply")
  end.

(** ** [MovieModel] *)

(** [func (m MovieModel) Get(id int64) (movie, error)] *)
Definition Get (id : Z) : M (Movie + error) :=
  if bool_decide (id < 0) then ret (inr ErrRecordNotFound)
  else
    do rep <- send (QSelect id);
    match scan_movie rep with
    | inl movie => ret (inl movie)
    | inr ErrNoRows => ret (inr ErrRecordNotFound)
    | inr err => ret (inr err)
    end.

(** [func (m MovieModel) Update(movie *Movie) error]: the pointed-to
    movie is threaded through; [Scan(&movie.Version)] writes only on
    success. *)
Definition Update (movie : Movie) : M (Movie * option error) :=
  do rep <- send (QUpdate (Title movie) (Year movie) (Runtime movie)
                          (Genres movie) (ID movie));
  match scan_version rep with
  | inl v => ret (set_Version movie v, None)
  | inr err => ret (movie, Some err)
  end.

(** [func (m MovieModel) Delete(id int64) error] *)
Definition Delete (id : Z) : M (option error) :=
  if bool_decide (id < 0) then ret (Some ErrRecordNotFound)
  else
    do rep <- send (QDelete id);
    match rep with
    | RFail e => ret (Some (DriverError e))
    | RAffected n =>
        if bool_decide (n = 0) then ret (Some ErrRecordNotFound) else ret None
    | _ => ret (Some (DriverError "unexpected reply"))
    end.

(** ** The validator package *)

(** Modelled from the spec: [internal/validator] (the [Validator] type,
    [Check], [Valid], [Unique] and [CheckForEmptyStrings]) is not in the
    sources.  Section 4.1: [check(ok, field, message)] records [message]
    under [field] only when [ok] is false and no message is recorded for
    that field yet; [valid()] is true iff no error is recorded. *)
Record Validator := mkValidator { Errors : gmap string string }.

Definition NewValidator : Validator := mkValidator ∅.

(** Modelled from the spec: [AddError] keeps the first message of a field. *)
Definition AddError (v : Validator) (key message : string) : Validator :=
  match Errors v !! key with
  | Some _ => v
  | None => mkValidator (<[key := message]> (Errors v))
  end.

(** Modelled from the spec: [Check(ok, key, message)]. *)
Definition Check (v : Validator) (ok : bool) (key message : string) : Validator :=
  if ok then v else AddError v key message.

(** Modelled from the spec: [Valid()] is [len(v.Errors) == 0]. *)
Definition Valid (v : Validator) : bool :=
  Nat.eqb (size (Errors v)) 0.

(** Modelled from the spec: [uniqueStrings], true iff no two elements of
    the slice are equal (a nil slice has none). *)
Fixpoint unique_list (l : list string) : bool :=
  match l with
  | [] => true
  | x :: xs => negb (existsb (String.eqb x) xs) && unique_list xs
  end.

Definition Unique (values : option (list string)) : bool :=
  match values with None => true | Some l => unique_list l end.

(** Modelled from the spec: [noEmptyStrings], true iff no element is the
    empty string. *)
Definition CheckForEmptyStrings (values : option (list string)) : bool :=
  match values with
  | None => true
  | Some l => forallb (fun s => negb (String.eqb s EmptyString)) l
  end.

(** ** [ValidateMovie] *)

Definition genres_len (g : option (list string)) : Z :=
  match g with None => 0 | Some l => Z.of_nat (length l) end.

(** The year rule of [ValidateMovie]:
    [movie.Year > 1888 && movie.Year <= int32(time.Now().Year())]. *)
Definition year_in_range (now_year year : Z) : bool :=
  (1888 <? year) && (year <=? to_int32 now_year).

(** [func ValidateMovie(v *validator.Validator, movie *Movie)]; the
    calendar year of [time.Now()] is the argument [now_year]. *)
Definition ValidateMovie (now_year : Z) (v : Validator) (movie : Movie) : Validator :=
  let v := Check v (negb (String.eqb (Title movie) EmptyString)) "title" "cannot be empty" in
  let v := Check v (Nat.ltb (String.length (Title movie)) 500) "title" "must be under 500 characters" in
  let v := Check v (negb (Z.eqb (Year movie) 0)) "year" "cannpt be empty" in
  let v := Check v (year_in_range now_year (Year movie)) "year" "must be between 1888 and today" in
  let v := Check v (0 <? Runtime movie) "runtime" "must be a positive integer" in
  let v := Check v (bool_decide (Genres movie <> None)) "genres" "cannot be empty" in
  let v := Check v (CheckForEmptyStrings (Genres movie)) "genres" "cannot be empty" in
  let v := Check v ((0 <? genres_len (Genres movie)) && (genres_len (Genres movie) <=? 5))
             "genres" "must have between 1 and 5 genres" in
  Check v (Unique (Genres movie)) "genres" "must be unique".

(** A sequence of [Check] calls on one validator, in call order. *)
Definition run_checks (v : Validator) (cs : list (bool * string * string)) : Validator :=
  fold_left (fun v '(ok, key, message) => Check v ok key message) cs v.

(** The message of the first failing check on [key], if any. *)
Fixpoint first_failure (key : string) (cs : list (bool * string * string)) : option string :=
  match cs with
  | [] => None
  | (ok, k, message) :: cs' =>
      if negb ok && String.eqb k key then Some message else first_failure key cs'
  end.

(** The checks [ValidateMovie] performs, in its order. *)
Definition movie_rules (now_year : Z) (movie : Movie) : list (bool * string * string) :=
  [(negb (String.eqb (Title movie) EmptyString), "title", "cannot be empty");
   (Nat.ltb (String.length (Title movie)) 500, "title", "must be under 500 characters");
   (negb (Z.eqb (Year movie) 0), "year", "cannpt be empty");
   (year_in_range now_year (Year movie), "year", "must be between 1888 and today");
   (0 <? Runtime movie, "runtime", "must be a positive integer");
   (bool_decide (Genres movie <> None), "genres", "cannot be empty");
   (CheckForEmptyStrings (Genres movie), "genres", "cannot be empty");
   ((0 <? genres_len (Genres movie)) && (genres_len (Genres movie) <=? 5),
    "genres", "must have between 1 and 5 genres");
   (Unique (Genres movie), "genres", "must be unique")].

(** ** The [Runtime] codec *)

(** Modelled from the spec: [internal/data/runtime.go] is not in the
    sources.  Section 4.2: [Runtime] is exchanged as the quoted string
    ["<N> mins"]; decoding fails with a format error when the value is not
    a quoted string, when the quoted content is not [<integer> mins], or
    when the integer is negative.  Escape sequences inside the quotes are
    not part of that grammar and are refused. *)
Inductive FormatError := ErrInvalidRuntimeFormat.

Definition dq : Ascii.ascii := Ascii.ascii_of_nat 34.        (* double quote *)
Definition backslash : Ascii.ascii := Ascii.ascii_of_nat 92. (* backslash *)
Definition space : Ascii.ascii := Ascii.ascii_of_nat 32.
Definition minus_sign : Ascii.ascii := Ascii.ascii_of_nat 45.
Definition plus_sign : Ascii.ascii := Ascii.ascii_of_nat 43.

Definition digit_char (d : N) : Ascii.ascii := Ascii.ascii_of_N (48 + d).

(** Decimal digits of [n], prepended to [acc] ([fuel] bounds the number
    of digits). *)
Fixpoint N_digits (fuel : nat) (n : N) (acc : string) : string :=
  match fuel with
  | O => acc
  | S f =>
      let acc' := String (digit_char (N.modulo n 10)) acc in
      if N.ltb n 10 then acc' else N_digits f (N.div n 10) acc'
  end.

(** Modelled from the spec: [%d] formatting of an integer. *)
Definition format_int (z : Z) : string :=
  if z <? 0 then String minus_sign (N_digits 64 (Z.abs_N z) EmptyString)
  else N_digits 64 (Z.to_N z) EmptyString.

(** Modelled from the spec: [MarshalJSON] renders ["<N> mins"], quoted. *)
Definition MarshalRuntime (r : Z) : string :=
  String dq (String.append (format_int r) (String.append " mins" (String dq EmptyString))).

Definition char_digit (c : Ascii.ascii) : option N :=
  let n := Ascii.N_of_ascii c in
  if (48 <=? n)%N && (n <=? 57)%N then Some (n - 48)%N else None.

(** Value of a non-empty run of decimal digits, read left to right. *)
Fixpoint parse_digits_from (acc : N) (s : string) : option N :=
  match s with
  | EmptyString => Some acc
  | String c s' =>
      match char_digit c with
      | Some d => parse_digits_from (acc * 10 + d)%N s'
      | None => None
      end
  end.

Definition parse_digits (s : string) : option N :=
  match s with
  | EmptyString => None
  | _ => parse_digits_from 0%N s
  end.

(** Modelled from the spec: an optionally signed decimal integer. *)
Definition parse_int (s : string) : option Z :=
  match s with
  | String c s' =>
      if Ascii.eqb c minus_sign then option_map (fun n => - Z.of_N n) (parse_digits s')
      else if Ascii.eqb c plus_sign then option_map Z.of_N (parse_digits s')
      else option_map Z.of_N (parse_digits s)
  | EmptyString => None
  end.

(** The body of a double-quoted literal up to its closing quote, which
    must end the input. *)
Fixpoint strip_closing_quote (s : string) : option string :=
  match s with
  | EmptyString => None
  | String c EmptyString => if Ascii.eqb c dq then Some EmptyString else None
  | String c s' =>
      if Ascii.eqb c dq || Ascii.eqb c backslash then None
      else option_map (String c) (strip_closing_quote s')
  end.

Definition unquote (s : string) : option string :=
  match s with
  | String c s' => if Ascii.eqb c dq then strip_closing_quote s' else None
  | EmptyString => None
  end.

(** [strings.Split(s, sep)] for a one-character separator. *)
Fixpoint split_on (sep : Ascii.ascii) (s : string) : list string :=
  match s with
  | EmptyString => [EmptyString]
  | String c s' =>
      let parts := split_on sep s' in
      if Ascii.eqb c sep then EmptyString :: parts
      else match parts with
           | p :: ps => String c p :: ps
           | [] => [String c EmptyString]
           end
  end.

(** Modelled from the spec: [UnmarshalJSON] for [Runtime]. *)
Definition UnmarshalRuntime (s : string) : Z + FormatError :=
  match unquote s with
  | None => inr ErrInvalidRuntimeFormat
  | Some body =>
      match split_on space body with
      | [num; unit] =>
          if String.eqb unit "mins" then
            match parse_int num with
            | Some n => if n <? 0 then inr ErrInvalidRuntimeFormat else inl n
            | None => inr ErrInvalidRuntimeFormat
            end
          else inr ErrInvalidRuntimeFormat
      | _ => inr ErrInvalidRuntimeFormat
      end
  end.

(** A runtime literal: a double quote, an integer, [" mins"], a double
    quote, with the integer not negative. *)
Definition runtime_literal (s : string) (n : Z) : Prop :=
  exists num, s = String dq (String.append num (String.append " mins" (String dq EmptyString)))
              /\ parse_int num = Some n /\ 0 <= n.

Example marshal_102 : MarshalRuntime 102 = String dq (String.append "102 mins" (String dq EmptyString)).
Proof. reflexivity. Qed.
Example unmarshal_bad1 : UnmarshalRuntime "102 mins" = inr ErrInvalidRuntimeFormat.
Proof. reflexivity. Qed.
Example unmarshal_neg : UnmarshalRuntime (MarshalRuntime (-5)) = inr ErrInvalidRuntimeFormat.
Proof. reflexivity. Qed.
Example unmarshal_plus : UnmarshalRuntime (String dq (String.append "+7 mins" (String dq EmptyString))) = inl 7.
Proof. reflexivity. Qed.

(** ** [MovieModel.Insert] *)

(** [func (m MovieModel) Insert(movie *Movie) error]: the statement
    [INSERT INTO movies (title, year, runtime, genres) VALUES ($1, $2, $3, $4)
    RETURNING id, created_at, version].  The backend fills [id] from the
    table's sequence ([next_id]), [created_at] with the current time
    ([now]) and [version] with its default 1; a clash on the primary key is
    a driver error.  [Scan(&movie.ID, &movie.CreatedAt, &movie.Version)]
    writes the three into the passed movie.  The log [issued] lists the
    statements of [Get], [Update] and [Delete]; the insert is not
    recorded in it. *)
Definition Insert (next_id now : Z) (movie : Movie) : M (Movie * option error) :=
  fun s =>
    match fault s with
    | Some e => ((movie, Some (DriverError e)), s)
    | None =>
        match find_row next_id (rows s) with
        | Some _ =>
            ((movie, Some (DriverError "duplicate key value violates unique constraint")), s)
        | None =>
            let row := mkMovie next_id now (Title movie) (Year movie)
                               (Runtime movie) (Genres movie) 1 in
            ((mkMovie (ID row) (CreatedAt row) (Title movie) (Year movie)
                      (Runtime movie) (Genres movie) (Version row), None),
             mkDB (rows s ++ [row]) (fault s) (issued s))
        end
    end.

(** ** [SetENV] (cmd/api/main.go) *)

Definition newline : Ascii.ascii := Ascii.ascii_of_nat 10.
Definition carriage_return : Ascii.ascii := Ascii.ascii_of_nat 13.
Definition nul : Ascii.ascii := Ascii.ascii_of_nat 0.
Definition equals_sign : Ascii.ascii := Ascii.ascii_of_nat 61.

(** [strings.Cut(s, sep)] for a one-character separator: the text before
    the first [sep], the text after it, and whether it was found; without
    [sep] the result is [(s, "", false)]. *)
Fixpoint Cut (sep : Ascii.ascii) (s : string) : string * string * bool :=
  match s with
  | EmptyString => (EmptyString, EmptyString, false)
  | String c s' =>
      if Ascii.eqb c sep then (EmptyString, s', true)
      else let '(before, after, found) := Cut sep s' in (String c before, after, found)
  end.

(** [dropCR] of [bufio]: one trailing carriage return is removed. *)
Fixpoint dropCR (s : string) : string :=
  match s with
  | EmptyString => EmptyString
  | String c EmptyString => if Ascii.eqb c carriage_return then EmptyString else s
  | String c s' => String c (dropCR s')
  end.

Definition MaxScanTokenSize : Z := 65536.

(** The tokens a [bufio.Scanner] with [ScanLines] yields on [text]: the
    pieces between newlines, without a final empty piece, each with its
    trailing carriage return dropped.  A line of [MaxScanTokenSize] bytes
    or more stops the scanner with [bufio.ErrTooLong] ([None]). *)
Definition ScanLines (text : string) : option (list string) :=
  let pieces := split_on newline text in
  let pieces := match last pieces with
                | Some EmptyString => removelast pieces
                | _ => pieces
                end in
  if existsb (fun p => MaxScanTokenSize <=? Z.of_nat (String.length p)) pieces then None
  else Some (map dropCR pieces).

Fixpoint has_char (c : Ascii.ascii) (s : string) : bool :=
  match s with
  | EmptyString => false
  | String x s' => Ascii.eqb x c || has_char c s'
  end.

(** [os.Setenv(key, value)] on Unix: an empty key, a key holding [=] or
    NUL, or a value holding NUL is refused with [EINVAL] and nothing is
    set.  [SetENV] ignores the returned error. *)
Definition Setenv (env : gmap string string) (key value : string) : gmap string string :=
  if String.eqb key EmptyString || has_char equals_sign key || has_char nul key
     || has_char nul value
  then env
  else <[key := value]> env.

(** One [name, value, _ := strings.Cut(scanner.Text(), "=")] and
    [os.Setenv(name, value)]. *)
Definition set_line (env : gmap string string) (line : string) : gmap string string :=
  let '(name, value, _) := Cut equals_sign line in Setenv env name value.

(** [func SetENV()]: [file] is the content of [./.env] ([None] when
    [os.Open] fails); [None] as a result is the process exiting through
    [log.Fatalln] / [log.Fatal]. *)
Definition SetENV (file : option string) (env : gmap string string)
    : option (gmap string string) :=
  match file with
  | None => None
  | Some text =>
      match ScanLines text with
      | None => None
      | Some lines => Some (fold_left set_line lines env)
      end
  end.

(** ** Sample states *)

Definition titanic : Movie :=
  mkMovie 1 1700000000 "Titanic" 1997 195 (Some ["drama"; "romance"]) 1.

Definition db_one : DB := mkDB [titanic] None [].
Definition db_empty : DB := mkDB [] None [].

Fixpoint repeat_char (n : nat) (c : Ascii.ascii) : string :=
  match n with O => EmptyString | S n' => String c (repeat_char n' c) end.

(** A title of 500 bytes. *)
Definition long_title : string := repeat_char 500 (Ascii.ascii_of_nat 97).

Example Get_one : fst (Get 1 db_one) = inl titanic.
Proof. reflexivity. Qed.
Example Update_one :
  fst (Update (set_Version titanic 7) db_one) = (set_Version titanic 2, None).
Proof. reflexivity. Qed.
Example Delete_one : Delete 1 db_one = (None, mkDB [] None [QDelete 1]).
Proof. reflexivity. Qed.

(** ** Lemmas on the table *)

Lemma find_row_Some id rs r :
  find_row id rs = Some r -> ID r = id /\ In r rs.
Proof.
  unfold find_row. intros Hf.
  destruct (find_some _ _ Hf) as [Hin Hb].
  apply bool_decide_eq_true in Hb. auto.
Qed.

Lemma find_row_map_update id t y rt g (rs : list Movie) r :
  find_row id rs = Some r ->
  find_row id (map (fun r' => if bool_decide (ID r' = id)
                              then update_row t y rt g r' else r') rs)
  = Some (update_row t y rt g r).
Proof.
  unfold find_row. induction rs as [|r0 rs IH]; simpl; [discriminate|].
  case_bool_decide as Hid; simpl.
  - intros [= <-]. rewrite bool_decide_true by exact Hid. reflexivity.
  - rewrite bool_decide_false by exact Hid. exact IH.
Qed.

Lemma find_row_None_filter id (rs : list Movie) :
  length (filter (fun r => ID r = id) rs) = 0%nat -> find_row id rs = None.
Proof.
  unfold find_row. induction rs as [|r0 rs IH]; simpl; [reflexivity|].
  rewrite filter_cons. destruct (decide (ID r0 = id)) as [Hid|Hid]; simpl.
  - discriminate.
  - rewrite bool_decide_false by exact Hid. exact IH.
Qed.

Lemma find_row_None_filter_len id (rs : list Movie) :
  find_row id rs = None -> length (filter (fun r => ID r = id) rs) = 0%nat.
Proof.
  unfold find_row. induction rs as [|r0 rs IH]; simpl; [reflexivity|].
  rewrite filter_cons. destruct (decide (ID r0 = id)) as [Hid|Hid]; simpl.
  - rewrite bool_decide_true by exact Hid. discriminate.
  - rewrite bool_decide_false by exact Hid. exact IH.
Qed.

Lemma find_row_Some_filter_len id (rs : list Movie) r :
  find_row id rs = Some r -> length (filter (fun r => ID r = id) rs) <> 0%nat.
Proof.
  intros Hr Hlen. rewrite (find_row_None_filter _ _ Hlen) in Hr. discriminate.
Qed.

Lemma find_row_filter_ne id (rs : list Movie) :
  find_row id (filter (fun r => ID r <> id) rs) = None.
Proof.
  apply find_row_None_filter. induction rs as [|r0 rs IH]; [reflexivity|].
  rewrite filter_cons. destruct (decide (ID r0 <> id)) as [Hid|Hid].
  - rewrite filter_cons, decide_False by exact Hid. exact IH.
  - exact IH.
Qed.

Lemma filter_ne_absent id (rs : list Movie) :
  id ∉ map ID rs -> filter (fun r => ID r <> id) rs = rs.
Proof.
  induction rs as [|r0 rs IH]; simpl; [reflexivity|].
  rewrite not_elem_of_cons. intros [Hne Hnin].
  rewrite filter_cons, decide_True by congruence. f_equal. exact (IH Hnin).
Qed.

Lemma filter_ne_length id (rs : list Movie) r :
  NoDup (map ID rs) -> find_row id rs = Some r ->
  length (filter (fun r => ID r <> id) rs) = (length rs - 1)%nat.
Proof.
  unfold find_row. induction rs as [|r0 rs IH]; simpl; [discriminate|].
  rewrite NoDup_cons. intros [Hnin Hnd].
  rewrite filter_cons. case_bool_decide as Hid.
  - intros _. rewrite decide_False by (intros Hc; exact (Hc Hid)).
    subst id. rewrite filter_ne_absent by exact Hnin. lia.
  - rewrite decide_True by exact Hid. intros Hf. simpl.
    rewrite (IH Hnd Hf). destruct rs; simpl in *; [discriminate|lia].
Qed.

Ltac run_store :=
  repeat unfold Get, Update, Delete, bind, send, ret in *; simpl in *.

(** ** C1: a successful update bumps the version by one *)

(** C1. For a movie whose id matches an existing row [r], a successful
    [Update] stores [Version r + 1] in the row and writes it into the
    passed movie; the row keeps its id and creation time, and of the
    passed movie only [Version] changes (so a movie read fresh from the
    row gets exactly its own version plus one). *)
Theorem Update_increments_version (s s' : DB) (movie movie' r : Movie) :
  find_row (ID movie) (rows s) = Some r ->
  Update movie s = ((movie', None), s') ->
  movie' = set_Version movie (Version r + 1) /\
  ID movie' = ID movie /\ CreatedAt movie' = CreatedAt movie /\
  Title movie' = Title movie /\ Year movie' = Year movie /\
  Runtime movie' = Runtime movie /\ Genres movie' = Genres movie /\
  (Version movie = Version r -> Version movie' = Version movie + 1) /\
  exists r', find_row (ID movie) (rows s') = Some r' /\
             Version r' = Version r + 1 /\ ID r' = ID r /\
             CreatedAt r' = CreatedAt r.
Proof.
  intros Hr Hup. destruct s as [rs f log]. run_store.
  destruct f as [e|]; simpl in Hup; [discriminate|].
  rewrite Hr in Hup. unfold pg_int4_add1 in Hup.
  case_bool_decide as Hov; simpl in Hup; [|discriminate].
  injection Hup as <- <-. simpl.
  split; [reflexivity|].
  do 6 (split; [reflexivity|]).
  split; [intros Hv; simpl; lia|].
  exists (update_row (Title movie) (Year movie) (Runtime movie) (Genres movie) r).
  rewrite (find_row_map_update _ _ _ _ _ _ r Hr).
  destruct (find_row_Some _ _ _ Hr) as [Hid _].
  simpl. auto.
Qed.

Lemma Update_increments_version_witness :
  find_row (ID titanic) (rows db_one) = Some titanic /\
  Update titanic db_one =
    ((set_Version titanic 2, None),
     mkDB [set_Version titanic 2] None [QUpdate "Titanic" 1997 195 (Some ["drama"; "romance"]) 1]) /\
  set_Version titanic 2 = set_Version titanic (Version titanic + 1).
Proof.
  assert (Hr : find_row (ID titanic) (rows db_one) = Some titanic) by reflexivity.
  assert (Hu : Update titanic db_one =
    ((set_Version titanic 2, None),
     mkDB [set_Version titanic 2] None [QUpdate "Titanic" 1997 195 (Some ["drama"; "romance"]) 1]))
    by reflexivity.
  split; [exact Hr|]. split; [exact Hu|].
  exact (proj1 (Update_increments_version _ _ _ _ _ Hr Hu)).
Defined.

(** ** C3: [Update] ignores the version it is handed *)

(** C3. Two movies that differ only in [Version] lead [Update] to the same
    backend state (the same statement, matched on [id] alone) and the same
    error result; on success both come back identical. *)
Theorem Update_version_blind (s : DB) (movie : Movie) (v : Z) :
  snd (Update movie s) = snd (Update (set_Version movie v) s) /\
  snd (fst (Update movie s)) = snd (fst (Update (set_Version movie v) s)) /\
  (snd (fst (Update movie s)) = None ->
   fst (fst (Update movie s)) = fst (fst (Update (set_Version movie v) s))).
Proof.
  destruct s as [rs f log]. destruct movie as [i c t y rt g ver].
  run_store. unfold set_Version. simpl.
  destruct f as [e|]; simpl;
    [|destruct (find_row i rs) as [r|]; simpl;
      [destruct (pg_int4_add1 (Version r)); simpl|]].
  all: split; [reflexivity|split; [reflexivity|]].
  all: intros Hnil; try discriminate Hnil; reflexivity.
Qed.

(** ** C2: failures of [Update] on a missing row *)

(** C2. On a healthy backend, an [Update] of a movie whose id matches no
    row returns [sql.ErrNoRows] as it comes from [Scan], unlike [Get],
    which maps the same situation to [ErrRecordNotFound]. *)
Theorem Update_missing_row_ErrNoRows (s : DB) (movie : Movie) :
  fault s = None -> 0 <= ID movie -> find_row (ID movie) (rows s) = None ->
  fst (Update movie s) = (movie, Some ErrNoRows) /\
  fst (Get (ID movie) s) = inr ErrRecordNotFound.
Proof.
  intros Hf Hid Hr. destruct s as [rs f log]. simpl in *. subst f.
  run_store. rewrite Hr. split; [reflexivity|].
  rewrite bool_decide_false by lia. simpl. rewrite Hr. reflexivity.
Qed.

Lemma Update_missing_row_ErrNoRows_witness :
  fst (Update titanic db_empty) = (titanic, Some ErrNoRows) /\
  fst (Get (ID titanic) db_empty) = inr ErrRecordNotFound.
Proof.
  apply (Update_missing_row_ErrNoRows db_empty titanic); simpl; [reflexivity|lia|reflexivity].
Defined.

(** ** C4: [Delete] *)

(** C4. [Delete] of a negative id fails with [ErrRecordNotFound] without
    touching the backend; otherwise a zero affected-row count fails with
    [ErrRecordNotFound]; and on a healthy backend deleting an existing id
    succeeds, removes the rows with that id (exactly one when ids are
    unique) and keeps the others. *)
Theorem Delete_spec (s : DB) (id : Z) :
  (id < 0 -> Delete id s = (Some ErrRecordNotFound, s)) /\
  (0 <= id -> fault s = None -> snd (exec (QDelete id) (rows s)) = RAffected 0 ->
   fst (Delete id s) = Some ErrRecordNotFound) /\
  (0 <= id -> fault s = None -> forall r, find_row id (rows s) = Some r ->
   fst (Delete id s) = None /\
   rows (snd (Delete id s)) = filter (fun r => ID r <> id) (rows s) /\
   find_row id (rows (snd (Delete id s))) = None /\
   (NoDup (map ID (rows s)) ->
    length (rows (snd (Delete id s))) = (length (rows s) - 1)%nat)).
Proof.
  destruct s as [rs f log]. split; [|split].
  - intros Hneg. run_store. rewrite bool_decide_true by exact Hneg. reflexivity.
  - intros Hid Hf H0. simpl in *. subst f. run_store.
    rewrite bool_decide_false by lia. simpl. injection H0 as H0.
    rewrite H0. reflexivity.
  - intros Hid Hf r Hr. simpl in *. subst f. run_store.
    rewrite bool_decide_false by lia. simpl.
    rewrite bool_decide_false
      by (pose proof (find_row_Some_filter_len _ _ _ Hr); lia).
    simpl. split; [reflexivity|]. split; [reflexivity|].
    split; [apply find_row_filter_ne|].
    intros Hnd. exact (filter_ne_length _ _ _ Hnd Hr).
Qed.

Lemma Delete_spec_witness :
  Delete (-1) db_one = (Some ErrRecordNotFound, db_one) /\
  fst (Delete 2 db_one) = Some ErrRecordNotFound /\
  (fst (Delete 1 db_one) = None /\
   rows (snd (Delete 1 db_one)) = filter (fun r => ID r <> 1) (rows db_one) /\
   find_row 1 (rows (snd (Delete 1 db_one))) = None /\
   (NoDup (map ID (rows db_one)) ->
    length (rows (snd (Delete 1 db_one))) = (length (rows db_one) - 1)%nat)).
Proof.
  split; [|split].
  - apply (proj1 (Delete_spec db_one (-1))). lia.
  - apply (proj1 (proj2 (Delete_spec db_one 2))); [lia|reflexivity|reflexivity].
  - apply (proj2 (proj2 (Delete_spec db_one 1)) ltac:(lia) eq_refl titanic).
    reflexivity.
Defined.

(** ** C5: the local fast path of [Get] *)

(** C5. [Get] of a negative id fails with [ErrRecordNotFound] and leaves
    the backend state, including the log of issued statements, as it was. *)
Theorem Get_negative_no_query (s : DB) (id : Z) :
  id < 0 -> Get id s = (inr ErrRecordNotFound, s).
Proof.
  intros Hneg. run_store. rewrite bool_decide_true by exact Hneg. reflexivity.
Qed.

Lemma Get_negative_no_query_witness :
  Get (-1) db_one = (inr ErrRecordNotFound, db_one).
Proof. apply Get_negative_no_query. lia. Defined.

(** ** C10: the fast path is exactly the negative ids *)

(** C10. For every id that is not negative (in particular 0), [Get] and
    [Delete] each send their one statement to the backend, and they fail
    with [ErrRecordNotFound] only when the healthy backend has no row with
    that id. *)
Theorem nonnegative_id_round_trip (s : DB) (id : Z) :
  0 <= id ->
  issued (snd (Get id s)) = issued s ++ [QSelect id] /\
  issued (snd (Delete id s)) = issued s ++ [QDelete id] /\
  (fst (Get id s) = inr ErrRecordNotFound ->
   fault s = None /\ find_row id (rows s) = None) /\
  (fst (Delete id s) = Some ErrRecordNotFound ->
   fault s = None /\ find_row id (rows s) = None).
Proof.
  intros Hid. destruct s as [rs f log]. run_store.
  rewrite !bool_decide_false by lia. simpl.
  destruct f as [e|]; simpl.
  - split; [reflexivity|]. split; [reflexivity|].
    split; intros H; discriminate H.
  - destruct (find_row id rs) as [r|] eqn:Hr; simpl;
      case_bool_decide as H0; simpl.
    all: split; [reflexivity|]; split; [reflexivity|].
    all: split; intros H; try discriminate H; split; try reflexivity; auto.
    pose proof (find_row_Some_filter_len _ _ _ Hr). lia.
Qed.

Lemma nonnegative_id_round_trip_witness :
  issued (snd (Get 0 db_one)) = [QSelect 0] /\
  issued (snd (Delete 0 db_one)) = [QDelete 0] /\
  (fst (Get 0 db_one) = inr ErrRecordNotFound ->
   fault db_one = None /\ find_row 0 (rows db_one) = None) /\
  (fst (Delete 0 db_one) = Some ErrRecordNotFound ->
   fault db_one = None /\ find_row 0 (rows db_one) = None).
Proof. apply (nonnegative_id_round_trip db_one 0). lia. Defined.

(** ** The validator *)

Lemma Check_lookup (v : Validator) ok k m key :
  Errors (Check v ok k m) !! key =
  if negb ok && String.eqb k key
  then match Errors v !! key with Some x => Some x | None => Some m end
  else Errors v !! key.
Proof.
  unfold Check, AddError. destruct ok; simpl; [reflexivity|].
  destruct (String.eqb_spec k key) as [<-|Hne].
  - destruct (Errors v !! k) eqn:Hk; simpl; [exact Hk|].
    apply lookup_insert_eq.
  - destruct (Errors v !! k); simpl; [reflexivity|].
    apply lookup_insert_ne. exact Hne.
Qed.

Lemma run_checks_lookup (v : Validator) cs key :
  Errors (run_checks v cs) !! key =
  match Errors v !! key with Some x => Some x | None => first_failure key cs end.
Proof.
  revert v. induction cs as [|[[ok k] m] cs IH]; intros v; simpl.
  - destruct (Errors v !! key); reflexivity.
  - rewrite IH, Check_lookup.
    destruct (negb ok && String.eqb k key); destruct (Errors v !! key); reflexivity.
Qed.

Lemma first_failure_In key m cs :
  In (false, key, m) cs -> first_failure key cs <> None.
Proof.
  induction cs as [|[[ok k] m'] cs IH]; simpl; [contradiction|].
  intros [Heq|Hin].
  - injection Heq as -> -> ->. rewrite String.eqb_refl. simpl. discriminate.
  - destruct (negb ok && String.eqb k key); [discriminate|]. exact (IH Hin).
Qed.

Lemma run_checks_failed_recorded (v : Validator) cs key m :
  In (false, key, m) cs -> Errors (run_checks v cs) !! key <> None.
Proof.
  intros Hin. rewrite run_checks_lookup.
  destruct (Errors v !! key); [discriminate|]. exact (first_failure_In _ _ _ Hin).
Qed.

Lemma ValidateMovie_rules now_year v movie :
  ValidateMovie now_year v movie = run_checks v (movie_rules now_year movie).
Proof. reflexivity. Qed.

(** ** C6: one message per field, the first failure wins *)

(** C6. After any sequence of [Check] calls, the message recorded for a
    field is the one it already had, or else the message of the first
    failing check on that field: later failing checks on a recorded field
    change nothing, and checks on other fields leave it alone.  [Valid]
    holds exactly when no field has a message. *)
Theorem Validator_first_failure_wins (v : Validator)
    (cs : list (bool * string * string)) (key : string) :
  Errors (run_checks v cs) !! key =
    match Errors v !! key with Some x => Some x | None => first_failure key cs end /\
  Errors (run_checks NewValidator cs) !! key = first_failure key cs /\
  (Valid (run_checks v cs) = true <-> forall k, Errors (run_checks v cs) !! k = None).
Proof.
  split; [apply run_checks_lookup|]. split.
  - rewrite run_checks_lookup. reflexivity.
  - unfold Valid. rewrite Nat.eqb_eq, map_size_empty_iff. apply map_empty.
Qed.

(** ** C8: the year rule *)

Lemma to_int32_small z : int32_min <= z <= int32_max -> to_int32 z = z.
Proof.
  unfold to_int32, int32_min, int32_max. intros Hz.
  rewrite Z.mod_small by lia. lia.
Qed.

(** C8. With the current year in the [int32] range, the year rule of
    [ValidateMovie] passes for every year in (1888, current year], and
    fails for 1888 and for every year after the current one, in which case
    [ValidateMovie] leaves a message on field ["year"]. *)
Theorem ValidateMovie_year_range (now_year y : Z) (v : Validator) (movie : Movie) :
  int32_min <= now_year <= int32_max -> Year movie = y ->
  (1888 < y <= now_year -> year_in_range now_year y = true) /\
  (y = 1888 \/ now_year < y ->
   year_in_range now_year y = false /\
   Errors (ValidateMovie now_year v movie) !! "year" <> None).
Proof.
  intros Hnow Hy.
  assert (Hr : year_in_range now_year y = (1888 <? y) && (y <=? now_year)).
  { unfold year_in_range. rewrite to_int32_small by exact Hnow. reflexivity. }
  split.
  - intros Hin. rewrite Hr. apply andb_true_intro. split; [apply Z.ltb_lt|apply Z.leb_le]; lia.
  - intros Hout.
    assert (Hf : year_in_range now_year y = false).
    { rewrite Hr. destruct Hout as [->|Hgt]; [reflexivity|].
      apply andb_false_intro2. apply Z.leb_gt. exact Hgt. }
    split; [exact Hf|].
    rewrite ValidateMovie_rules.
    apply (run_checks_failed_recorded _ _ _ "must be between 1888 and today").
    unfold movie_rules. rewrite Hy, Hf. simpl. auto 6.
Qed.

Lemma ValidateMovie_year_range_witness :
  (1888 < 1888 <= 2026 -> year_in_range 2026 1888 = true) /\
  (1888 = 1888 \/ 2026 < 1888 ->
   year_in_range 2026 1888 = false /\
   Errors (ValidateMovie 2026 NewValidator
             (mkMovie 1 0 "Titanic" 1888 195 (Some ["drama"]) 1)) !! "year" <> None).
Proof.
  apply (ValidateMovie_year_range 2026 1888 NewValidator
           (mkMovie 1 0 "Titanic" 1888 195 (Some ["drama"]) 1));
    [unfold int32_min, int32_max; lia|reflexivity].
Defined.

(** ** C9: duplicate genres *)

Lemma unique_list_NoDup (l : list string) : unique_list l = true -> NoDup l.
Proof.
  induction l as [|x xs IH]; simpl; [constructor|].
  intros Hu. apply andb_true_iff in Hu as [Hx Hxs].
  constructor; [|exact (IH Hxs)].
  intros Hin. apply list_elem_of_In in Hin.
  assert (Hex : existsb (String.eqb x) xs = true).
  { apply existsb_exists. exists x. split; [exact Hin|apply String.eqb_refl]. }
  rewrite Hex in Hx. discriminate.
Qed.

(** C9. If the genres hold the same string at two different positions,
    [uniqueStrings] is false on them and [ValidateMovie] leaves a message
    on field ["genres"]. *)
Theorem ValidateMovie_duplicate_genres (now_year : Z) (v : Validator) (movie : Movie)
    (l : list string) (i j : nat) (x : string) :
  Genres movie = Some l -> i <> j -> l !! i = Some x -> l !! j = Some x ->
  unique_list l = false /\ Unique (Genres movie) = false /\
  Errors (ValidateMovie now_year v movie) !! "genres" <> None.
Proof.
  intros Hg Hij Hi Hj.
  assert (Hu : unique_list l = false).
  { destruct (unique_list l) eqn:Hu; [|reflexivity].
    exfalso. apply Hij. exact (NoDup_lookup l i j x (unique_list_NoDup l Hu) Hi Hj). }
  assert (HU : Unique (Genres movie) = false) by (rewrite Hg; exact Hu).
  split; [exact Hu|]. split; [exact HU|].
  rewrite ValidateMovie_rules.
  apply (run_checks_failed_recorded _ _ _ "must be unique").
  unfold movie_rules. rewrite HU. simpl. auto 10.
Qed.

Lemma ValidateMovie_duplicate_genres_witness :
  unique_list ["drama"; "drama"] = false /\
  Unique (Genres (mkMovie 1 0 "Titanic" 1997 195 (Some ["drama"; "drama"]) 1)) = false /\
  Errors (ValidateMovie 2026 NewValidator
            (mkMovie 1 0 "Titanic" 1997 195 (Some ["drama"; "drama"]) 1)) !! "genres" <> None.
Proof.
  apply (ValidateMovie_duplicate_genres 2026 NewValidator
           (mkMovie 1 0 "Titanic" 1997 195 (Some ["drama"; "drama"]) 1)
           ["drama"; "drama"] 0 1 "drama"); [reflexivity|lia|reflexivity|reflexivity].
Defined.

(** ** C7: the [Runtime] codec *)

Lemma strip_closing_quote_app (s t : string) :
  strip_closing_quote s = Some t -> s = String.append t (String dq EmptyString).
Proof.
  revert t. induction s as [|c s IH]; intros t; simpl; [discriminate|].
  destruct s as [|c' s'].
  - destruct (Ascii.eqb c dq) eqn:Hc; [|discriminate].
    apply Ascii.eqb_eq in Hc. subst c. intros [= <-]. reflexivity.
  - destruct (Ascii.eqb c dq || Ascii.eqb c backslash); [discriminate|].
    destruct (strip_closing_quote (String c' s')) as [t'|] eqn:Ht; simpl; [|discriminate].
    intros [= <-]. rewrite (IH t' eq_refl) at 1. reflexivity.
Qed.

Lemma unquote_app (s body : string) :
  unquote s = Some body -> s = String dq (String.append body (String dq EmptyString)).
Proof.
  destruct s as [|c s']; simpl; [discriminate|].
  destruct (Ascii.eqb c dq) eqn:Hc; [|discriminate].
  apply Ascii.eqb_eq in Hc. subst c. intros Hb. f_equal.
  exact (strip_closing_quote_app _ _ Hb).
Qed.

Lemma split_on_nil sep s : split_on sep s <> [].
Proof.
  destruct s as [|c s']; simpl; [discriminate|].
  destruct (Ascii.eqb c sep); [discriminate|].
  destruct (split_on sep s'); discriminate.
Qed.

Lemma split_on_one sep s b : split_on sep s = [b] -> s = b.
Proof.
  revert b. induction s as [|c s IH]; intros b; simpl; [congruence|].
  destruct (Ascii.eqb c sep).
  - intros [= _ Hp]. exfalso. exact (split_on_nil sep s Hp).
  - destruct (split_on sep s) as [|p ps] eqn:Hs;
      [exfalso; exact (split_on_nil sep s Hs)|].
    intros [= <- ->]. f_equal. exact (IH p eq_refl).
Qed.

Lemma split_on_two sep s a b :
  split_on sep s = [a; b] -> s = String.append a (String sep b).
Proof.
  revert a. induction s as [|c s IH]; intros a; simpl; [discriminate|].
  destruct (Ascii.eqb c sep) eqn:Hc.
  - apply Ascii.eqb_eq in Hc. subst c. intros [= <- Hb].
    rewrite (split_on_one _ _ _ Hb). reflexivity.
  - destruct (split_on sep s) as [|p ps] eqn:Hs;
      [exfalso; exact (split_on_nil sep s Hs)|].
    intros [= <- ->]. rewrite (IH p eq_refl) at 1. reflexivity.
Qed.

Lemma append_assoc_str (a b c : string) :
  String.append (String.append a b) c = String.append a (String.append b c).
Proof. induction a as [|x a IH]; [reflexivity|]. exact (f_equal (String x) IH). Qed.

Lemma UnmarshalRuntime_literal (s : string) (n : Z) :
  UnmarshalRuntime s = inl n -> runtime_literal s n.
Proof.
  unfold UnmarshalRuntime.
  destruct (unquote s) as [body|] eqn:Hq; [|discriminate].
  destruct (split_on space body) as [|num [|unit [|x rest]]] eqn:Hs; try discriminate.
  destruct (String.eqb_spec unit "mins") as [->|]; [|discriminate].
  destruct (parse_int num) as [m|] eqn:Hp; [|discriminate].
  destruct (Z.ltb_spec m 0); [discriminate|]. intros [= <-].
  exists num. split; [|split; [exact Hp|exact H]].
  rewrite (unquote_app _ _ Hq), (split_on_two _ _ _ _ Hs).
  f_equal. rewrite append_assoc_str. reflexivity.
Qed.

(** C7. Encoding a runtime of 102 minutes and decoding the result gives
    back 102, and every input that is not a double-quoted
    [<integer> mins] with a non-negative integer is refused with the
    format error. *)
Theorem Runtime_codec_roundtrip (s : string) :
  UnmarshalRuntime (MarshalRuntime 102) = inl 102 /\
  ((forall n, ~ runtime_literal s n) -> UnmarshalRuntime s = inr ErrInvalidRuntimeFormat).
Proof.
  split; [reflexivity|].
  intros Hnot. destruct (UnmarshalRuntime s) as [n|[]] eqn:Hu; [|reflexivity].
  exfalso. exact (Hnot n (UnmarshalRuntime_literal s n Hu)).
Qed.

Lemma Runtime_codec_roundtrip_witness :
  UnmarshalRuntime (MarshalRuntime 102) = inl 102 /\
  UnmarshalRuntime "102 mins" = inr ErrInvalidRuntimeFormat.
Proof.
  split; [exact (proj1 (Runtime_codec_roundtrip "102 mins"))|].
  apply (proj2 (Runtime_codec_roundtrip "102 mins")).
  intros n [num [Heq _]]. injection Heq as Hc _.
  unfold dq in Hc. vm_compute in Hc. discriminate Hc.
Defined.

Definition env_text : string :=
  String.append "dsn=postgres://u:p@h/db?sslmode=disable"
    (String carriage_return (String newline (String.append "PORT" (String newline
      (String.append "dsn=second" (String newline EmptyString)))))).
Example SetENV_sample :
  option_map (fun env => (env !! "dsn", env !! "PORT")) (SetENV (Some env_text) ∅)
  = Some (Some "second", Some EmptyString).
Proof. vm_compute. reflexivity. Qed.
Example ScanLines_sample :
  ScanLines env_text = Some ["dsn=postgres://u:p@h/db?sslmode=disable"; "PORT"; "dsn=second"].
Proof. vm_compute. reflexivity. Qed.

(** ** More on the store *)

Lemma find_row_None_not_in id (rs : list Movie) :
  find_row id rs = None -> id ∉ map ID rs.
Proof.
  unfold find_row. induction rs as [|r rs IH]; simpl; [intros; apply not_elem_of_nil|].
  case_bool_decide as Hid; [discriminate|]. intros Hf.
  rewrite not_elem_of_cons. split; [congruence|exact (IH Hf)].
Qed.

Lemma find_row_app id (rs1 rs2 : list Movie) :
  find_row id (rs1 ++ rs2) =
  match find_row id rs1 with Some r => Some r | None => find_row id rs2 end.
Proof.
  unfold find_row. induction rs1 as [|r rs1 IH]; simpl; [reflexivity|].
  case_bool_decide; [reflexivity|exact IH].
Qed.

Lemma find_row_app_new id (rs : list Movie) r :
  find_row id rs = None -> ID r = id -> find_row id (rs ++ [r]) = Some r.
Proof.
  intros Hf Hid. rewrite find_row_app, Hf. unfold find_row. simpl.
  rewrite bool_decide_true by exact Hid. reflexivity.
Qed.

Lemma find_row_app_old id (rs : list Movie) r :
  ID r <> id -> find_row id (rs ++ [r]) = find_row id rs.
Proof.
  intros Hid. rewrite find_row_app.
  destruct (find_row id rs); [reflexivity|]. unfold find_row. simpl.
  rewrite bool_decide_false by exact Hid. reflexivity.
Qed.

Lemma find_row_map_other id id' t y rt g (rs : list Movie) :
  id' <> id ->
  find_row id' (map (fun r' => if bool_decide (ID r' = id)
                               then update_row t y rt g r' else r') rs)
  = find_row id' rs.
Proof.
  unfold find_row. intros Hne. induction rs as [|r rs IH]; simpl; [reflexivity|].
  destruct (decide (ID r = id)) as [Hid|Hid].
  - rewrite (bool_decide_true (ID r = id)) by exact Hid. simpl.
    rewrite !bool_decide_false by congruence. exact IH.
  - rewrite (bool_decide_false (ID r = id)) by exact Hid.
    case_bool_decide; [reflexivity|exact IH].
Qed.

Lemma find_row_filter_other id id' (rs : list Movie) :
  id' <> id -> find_row id' (filter (fun r => ID r <> id) rs) = find_row id' rs.
Proof.
  unfold find_row. intros Hne. induction rs as [|r rs IH]; simpl; [reflexivity|].
  rewrite filter_cons. destruct (decide (ID r <> id)) as [Hid|Hid]; simpl.
  - case_bool_decide; [reflexivity|exact IH].
  - rewrite bool_decide_false by (intros Heq; apply Hid; congruence). exact IH.
Qed.

Lemma sublist_map_ID (rs1 rs2 : list Movie) :
  rs1 `sublist_of` rs2 -> map ID rs1 `sublist_of` map ID rs2.
Proof. induction 1; simpl; constructor; assumption. Qed.

Lemma map_ID_update id t y rt g (rs : list Movie) :
  map ID (map (fun r' => if bool_decide (ID r' = id)
                         then update_row t y rt g r' else r') rs) = map ID rs.
Proof.
  induction rs as [|r rs IH]; simpl; [reflexivity|].
  rewrite IH. case_bool_decide; reflexivity.
Qed.

(** X1. On a healthy backend whose id sequence yields a fresh id, [Insert]
    succeeds, fills the passed movie with that id, the current time and
    version 1 while echoing its other fields, and a [Get] of the new id
    afterwards returns exactly that movie. *)
Theorem Insert_then_Get (s : DB) (next_id now : Z) (movie : Movie) :
  fault s = None -> 0 <= next_id -> find_row next_id (rows s) = None ->
  let inserted := mkMovie next_id now (Title movie) (Year movie)
                          (Runtime movie) (Genres movie) 1 in
  fst (Insert next_id now movie s) = (inserted, None) /\
  fst (Get next_id (snd (Insert next_id now movie s))) = inl inserted.
Proof.
  intros Hf Hid Hr inserted. destruct s as [rs f log]. simpl in *. subst f.
  unfold Insert. simpl. rewrite Hr. simpl. split; [reflexivity|].
  run_store. rewrite bool_decide_false by lia. simpl.
  erewrite find_row_app_new; [reflexivity|exact Hr|reflexivity].
Qed.

Lemma Insert_then_Get_witness :
  fst (Insert 2 1800000000 titanic db_one) =
    (mkMovie 2 1800000000 "Titanic" 1997 195 (Some ["drama"; "romance"]) 1, None) /\
  fst (Get 2 (snd (Insert 2 1800000000 titanic db_one))) =
    inl (mkMovie 2 1800000000 "Titanic" 1997 195 (Some ["drama"; "romance"]) 1).
Proof.
  apply (Insert_then_Get db_one 2 1800000000 titanic); [reflexivity|lia|reflexivity].
Defined.

(** X2. [Get] never writes: whatever it answers, the table and the
    connection state are the ones it started from. *)
Theorem Get_read_only (s : DB) (id : Z) :
  rows (snd (Get id s)) = rows s /\ fault (snd (Get id s)) = fault s.
Proof.
  destruct s as [rs f log]. run_store.
  case_bool_decide; simpl; [auto|].
  destruct f; simpl; [auto|].
  destruct (find_row id rs); simpl; auto.
Qed.

(** X3. After a successful [Update] of an existing row [r], a [Get] of the
    same id returns the fields the update sent, the new version, and the
    creation time of [r], whatever [CreatedAt] the passed movie carried. *)
Theorem Update_then_Get (s s' : DB) (movie movie' r : Movie) :
  0 <= ID movie -> find_row (ID movie) (rows s) = Some r ->
  Update movie s = ((movie', None), s') ->
  fst (Get (ID movie) s') =
    inl (mkMovie (ID movie) (CreatedAt r) (Title movie') (Year movie')
                 (Runtime movie') (Genres movie') (Version movie')).
Proof.
  intros Hid Hr Hup.
  destruct s as [rs f log]. simpl in Hr. unfold Update, bind, send, ret in Hup. simpl in Hup.
  destruct f as [e|]; simpl in Hup; [discriminate|].
  rewrite Hr in Hup. unfold pg_int4_add1 in Hup.
  case_bool_decide as Hov; simpl in Hup; [|discriminate].
  injection Hup as <- <-.
  destruct (find_row_Some _ _ _ Hr) as [HidR _].
  run_store. rewrite bool_decide_false by lia. simpl.
  rewrite (find_row_map_update _ _ _ _ _ _ r Hr). simpl.
  unfold update_row. rewrite HidR. reflexivity.
Qed.

Lemma Update_then_Get_witness :
  fst (Get 1 (snd (Update (mkMovie 1 42 "Titanic II" 2001 180 (Some ["drama"]) 1) db_one))) =
    inl (mkMovie 1 1700000000 "Titanic II" 2001 180 (Some ["drama"]) 2).
Proof.
  exact (Update_then_Get db_one _ (mkMovie 1 42 "Titanic II" 2001 180 (Some ["drama"]) 1)
           (mkMovie 1 42 "Titanic II" 2001 180 (Some ["drama"]) 2) titanic
           ltac:(simpl; lia) eq_refl eq_refl).
Defined.

(** X4. [Update], [Delete] and [Insert] never touch a row with another id:
    whatever they answer, the lookup of any other id is unchanged. *)
Theorem store_frame (s : DB) (movie : Movie) (id id' next_id now : Z) :
  (id' <> ID movie -> find_row id' (rows (snd (Update movie s))) = find_row id' (rows s)) /\
  (id' <> id -> find_row id' (rows (snd (Delete id s))) = find_row id' (rows s)) /\
  (id' <> next_id ->
   find_row id' (rows (snd (Insert next_id now movie s))) = find_row id' (rows s)).
Proof.
  destruct s as [rs f log]. split; [|split]; intros Hne.
  - run_store. destruct f; simpl; [reflexivity|].
    destruct (find_row (ID movie) rs); simpl; [|reflexivity].
    destruct (pg_int4_add1 _); simpl; [|reflexivity].
    apply find_row_map_other. exact Hne.
  - run_store. case_bool_decide; simpl; [reflexivity|].
    destruct f; simpl; [reflexivity|].
    case_bool_decide; simpl; apply find_row_filter_other; exact Hne.
  - unfold Insert. simpl. destruct f; simpl; [reflexivity|].
    destruct (find_row next_id rs); simpl; [reflexivity|].
    apply find_row_app_old. simpl. congruence.
Qed.

Lemma store_frame_witness :
  find_row 1 (rows (snd (Update (mkMovie 2 0 "Alien" 1979 117 None 1) db_one))) = Some titanic /\
  find_row 1 (rows (snd (Delete 2 db_one))) = Some titanic /\
  find_row 1 (rows (snd (Insert 2 0 titanic db_one))) = Some titanic.
Proof.
  destruct (store_frame db_one (mkMovie 2 0 "Alien" 1979 117 None 1) 2 1 2 0)
    as [H1 [H2 H3]].
  split; [|split]; [apply H1|apply H2|apply H3]; simpl; lia.
Defined.

(** X5. On a healthy backend, once [Delete id] has run, a [Get] of the
    same id and a second [Delete] of it both fail with
    [ErrRecordNotFound]. *)
Theorem Delete_then_Get (s : DB) (id : Z) :
  fault s = None ->
  fst (Get id (snd (Delete id s))) = inr ErrRecordNotFound /\
  fst (Delete id (snd (Delete id s))) = Some ErrRecordNotFound.
Proof.
  intros Hf. destruct s as [rs f log]. simpl in Hf. subst f.
  destruct (decide (id < 0)) as [Hneg|Hpos].
  - run_store. rewrite !bool_decide_true by exact Hneg. simpl.
    auto.
  - pose proof (find_row_None_filter_len _ _ (find_row_filter_ne id rs)) as H0.
    run_store. rewrite !(bool_decide_false (id < 0)) by exact Hpos. simpl.
    destruct (bool_decide (Z.of_nat (length (filter (fun r => ID r = id) rs)) = 0));
      simpl; rewrite ?(bool_decide_false (id < 0)) by exact Hpos; simpl;
      rewrite ?find_row_filter_ne, ?H0; simpl; auto.
Qed.

Lemma Delete_then_Get_witness :
  fst (Get 1 (snd (Delete 1 db_one))) = inr ErrRecordNotFound /\
  fst (Delete 1 (snd (Delete 1 db_one))) = Some ErrRecordNotFound.
Proof. apply Delete_then_Get. reflexivity. Defined.

(** X6. When the connection is broken, every store operation that reaches
    the backend fails with the driver's error and leaves the table as it
    was; [Update] and [Insert] leave the passed movie as it was. *)
Theorem faulty_backend (s : DB) (e : string) (id next_id now : Z) (movie : Movie) :
  fault s = Some e -> 0 <= id ->
  fst (Get id s) = inr (DriverError e) /\ rows (snd (Get id s)) = rows s /\
  fst (Delete id s) = Some (DriverError e) /\ rows (snd (Delete id s)) = rows s /\
  fst (Update movie s) = (movie, Some (DriverError e)) /\
  rows (snd (Update movie s)) = rows s /\
  Insert next_id now movie s = ((movie, Some (DriverError e)), s).
Proof.
  intros Hf Hid. destruct s as [rs f log]. simpl in Hf. subst f.
  unfold Insert. run_store. rewrite !bool_decide_false by lia. simpl.
  repeat split; reflexivity.
Qed.

Lemma faulty_backend_witness :
  fst (Get 1 (mkDB [titanic] (Some "connection refused") [])) =
    inr (DriverError "connection refused") /\
  rows (snd (Get 1 (mkDB [titanic] (Some "connection refused") []))) = [titanic] /\
  fst (Delete 1 (mkDB [titanic] (Some "connection refused") [])) =
    Some (DriverError "connection refused") /\
  rows (snd (Delete 1 (mkDB [titanic] (Some "connection refused") []))) = [titanic] /\
  fst (Update titanic (mkDB [titanic] (Some "connection refused") [])) =
    (titanic, Some (DriverError "connection refused")) /\
  rows (snd (Update titanic (mkDB [titanic] (Some "connection refused") []))) = [titanic] /\
  Insert 2 0 titanic (mkDB [titanic] (Some "connection refused") []) =
    ((titanic, Some (DriverError "connection refused")),
     mkDB [titanic] (Some "connection refused") []).
Proof. apply faulty_backend; [reflexivity|lia]. Defined.

(** X7. The store keeps ids unique: if no two rows share an id before an
    [Update], a [Delete] or an [Insert], none do after it. *)
Theorem store_keeps_ids_unique (s : DB) (movie : Movie) (id next_id now : Z) :
  NoDup (map ID (rows s)) ->
  NoDup (map ID (rows (snd (Update movie s)))) /\
  NoDup (map ID (rows (snd (Delete id s)))) /\
  NoDup (map ID (rows (snd (Insert next_id now movie s)))).
Proof.
  intros Hnd. destruct s as [rs f log]. simpl in Hnd. split; [|split].
  - run_store. destruct f; simpl; [exact Hnd|].
    destruct (find_row (ID movie) rs); simpl; [|exact Hnd].
    destruct (pg_int4_add1 _); simpl; [|exact Hnd].
    rewrite map_ID_update. exact Hnd.
  - run_store. case_bool_decide; simpl; [exact Hnd|].
    destruct f; simpl; [exact Hnd|].
    assert (Hnd' : NoDup (map ID (filter (fun r => ID r <> id) rs))).
    { apply (sublist_NoDup _ (map ID rs) Hnd).
      apply sublist_map_ID. apply sublist_filter. }
    case_bool_decide; exact Hnd'.
  - unfold Insert. simpl. destruct f; simpl; [exact Hnd|].
    destruct (find_row next_id rs) eqn:Hr; simpl; [exact Hnd|].
    rewrite map_app. simpl. apply NoDup_app. split; [exact Hnd|]. split.
    + intros x Hx Hin. apply list_elem_of_singleton in Hin. subst x.
      exact (find_row_None_not_in _ _ Hr Hx).
    + apply NoDup_singleton.
Qed.

Lemma store_keeps_ids_unique_witness :
  NoDup (map ID (rows (snd (Update titanic db_one)))) /\
  NoDup (map ID (rows (snd (Delete 1 db_one)))) /\
  NoDup (map ID (rows (snd (Insert 2 0 titanic db_one)))).
Proof. apply store_keeps_ids_unique. simpl. apply NoDup_singleton. Defined.

(** ** More on [ValidateMovie] *)

Lemma run_checks_all_ok (v : Validator) cs :
  forallb (fun c => fst (fst c)) cs = true -> run_checks v cs = v.
Proof.
  revert v. induction cs as [|[[ok k] m] cs IH]; intros v; simpl; [reflexivity|].
  intros Hall. apply andb_true_iff in Hall as [Hok Hall]. subst ok.
  exact (IH v Hall).
Qed.

Lemma forallb_false_In {A} (f : A -> bool) (l : list A) :
  forallb f l = false -> exists x, In x l /\ f x = false.
Proof.
  induction l as [|x l IH]; simpl; [discriminate|].
  destruct (f x) eqn:Hx; simpl.
  - intros Hl. destruct (IH Hl) as [y [Hy Hfy]]. eauto.
  - intros _. eauto.
Qed.

Lemma Valid_empty_iff (v : Validator) :
  Valid v = true <-> forall k, Errors v !! k = None.
Proof. unfold Valid. rewrite Nat.eqb_eq, map_size_empty_iff. apply map_empty. Qed.

Lemma Valid_run_checks_new cs :
  Valid (run_checks NewValidator cs) = true <-> forallb (fun c => fst (fst c)) cs = true.
Proof.
  split.
  - intros Hv. destruct (forallb (fun c => fst (fst c)) cs) eqn:Hall; [reflexivity|].
    exfalso. destruct (forallb_false_In _ _ Hall) as [[[ok k] m] [Hin Hok]].
    simpl in Hok. subst ok.
    apply (run_checks_failed_recorded NewValidator cs k m Hin).
    exact (proj1 (Valid_empty_iff _) Hv k).
  - intros Hall. rewrite run_checks_all_ok by exact Hall. reflexivity.
Qed.

Lemma unique_list_iff (l : list string) : unique_list l = true <-> NoDup l.
Proof.
  split; [apply unique_list_NoDup|].
  induction l as [|x xs IH]; simpl; [reflexivity|].
  rewrite NoDup_cons. intros [Hx Hxs]. apply andb_true_iff. split; [|exact (IH Hxs)].
  apply negb_true_iff. apply Bool.not_true_iff_false. intros Hex.
  apply existsb_exists in Hex as [y [Hy Heq]]. apply String.eqb_eq in Heq. subst y.
  apply Hx. apply list_elem_of_In. exact Hy.
Qed.

Lemma no_empty_strings_iff (l : list string) :
  forallb (fun s => negb (String.eqb s EmptyString)) l = true <-> EmptyString ∉ l.
Proof.
  rewrite forallb_forall. split.
  - intros Hall Hin. apply list_elem_of_In in Hin.
    specialize (Hall _ Hin). rewrite String.eqb_refl in Hall. discriminate.
  - intros Hnin x Hx. apply negb_true_iff. apply String.eqb_neq. intros ->.
    apply Hnin. apply list_elem_of_In. exact Hx.
Qed.

(** X8. On a fresh validator, [ValidateMovie] leaves no error exactly when
    the title is non-empty and shorter than 500 bytes, the year lies in
    (1888, current year], the runtime is positive, and the genres are a
    non-nil list of 1 to 5 distinct non-empty strings. *)
Theorem ValidateMovie_valid_iff (now_year : Z) (movie : Movie) :
  Valid (ValidateMovie now_year NewValidator movie) = true <->
  Title movie <> EmptyString /\ (String.length (Title movie) < 500)%nat /\
  1888 < Year movie <= to_int32 now_year /\ 0 < Runtime movie /\
  exists l, Genres movie = Some l /\ (1 <= length l <= 5)%nat /\
            (EmptyString ∉ l) /\ NoDup l.
Proof.
  rewrite ValidateMovie_rules, Valid_run_checks_new. unfold movie_rules.
  unfold year_in_range, genres_len, CheckForEmptyStrings, Unique.
  cbn [forallb fst]. rewrite andb_true_r.
  rewrite !andb_true_iff, negb_true_iff, String.eqb_neq, Nat.ltb_lt,
    negb_true_iff, Z.eqb_neq, Z.ltb_lt, Z.leb_le, Z.ltb_lt.
  destruct (Genres movie) as [l|] eqn:Hg.
  - rewrite bool_decide_true by discriminate.
    rewrite Z.ltb_lt, Z.leb_le, no_empty_strings_iff, unique_list_iff.
    split.
    + intros (Ht & Hl & _ & Hy & Hr & _ & He & (Hn1 & Hn5) & Hu).
      repeat split; try assumption; try lia.
      exists l. repeat split; try assumption; lia.
    + intros (Ht & Hl & Hy & Hr & l' & [= <-] & Hn & He & Hu).
      repeat split; try assumption; try lia.
  - split.
    + intros (_ & _ & _ & _ & _ & Hb & _). apply bool_decide_eq_true in Hb.
      congruence.
    + intros (_ & _ & _ & _ & l' & Hl' & _). discriminate.
Qed.

Lemma ValidateMovie_new_lookup now_year movie key :
  Errors (ValidateMovie now_year NewValidator movie) !! key =
  first_failure key (movie_rules now_year movie).
Proof. rewrite ValidateMovie_rules, run_checks_lookup. reflexivity. Qed.

(** X9. On a fresh validator, the message [ValidateMovie] leaves on
    ["title"], ["year"] and ["runtime"] is the first rule of that field to
    fail: an empty title gets ["cannot be empty"] and a non-empty one of
    500 bytes or more ["must be under 500 characters"]; a zero year gets
    ["cannpt be empty"], not the range message; a non-positive runtime gets
    ["must be a positive integer"]; a field whose rules all pass gets
    nothing. *)
Theorem ValidateMovie_scalar_messages (now_year : Z) (movie : Movie) :
  (Title movie = EmptyString ->
   Errors (ValidateMovie now_year NewValidator movie) !! "title" = Some "cannot be empty") /\
  (Title movie <> EmptyString -> (500 <= String.length (Title movie))%nat ->
   Errors (ValidateMovie now_year NewValidator movie) !! "title"
   = Some "must be under 500 characters") /\
  (Title movie <> EmptyString -> (String.length (Title movie) < 500)%nat ->
   Errors (ValidateMovie now_year NewValidator movie) !! "title" = None) /\
  (Year movie = 0 ->
   Errors (ValidateMovie now_year NewValidator movie) !! "year" = Some "cannpt be empty") /\
  (Year movie <> 0 -> year_in_range now_year (Year movie) = false ->
   Errors (ValidateMovie now_year NewValidator movie) !! "year"
   = Some "must be between 1888 and today") /\
  (year_in_range now_year (Year movie) = true ->
   Errors (ValidateMovie now_year NewValidator movie) !! "year" = None) /\
  (Runtime movie <= 0 ->
   Errors (ValidateMovie now_year NewValidator movie) !! "runtime"
   = Some "must be a positive integer") /\
  (0 < Runtime movie ->
   Errors (ValidateMovie now_year NewValidator movie) !! "runtime" = None).
Proof.
  rewrite !ValidateMovie_new_lookup. unfold movie_rules. simpl.
  rewrite !andb_false_r, !andb_true_r.
  split; [intros Ht; rewrite Ht; reflexivity|].
  split; [intros Hne Hlen; rewrite (proj2 (String.eqb_neq _ _) Hne);
          replace ((String.length (Title movie) <? 500)%nat) with false
            by (symmetry; apply Nat.ltb_ge; lia); reflexivity|].
  split; [intros Hne Hlen; rewrite (proj2 (String.eqb_neq _ _) Hne);
          replace ((String.length (Title movie) <? 500)%nat) with true
            by (symmetry; apply Nat.ltb_lt; lia); reflexivity|].
  split; [intros Hy; rewrite Hy; reflexivity|].
  split; [intros Hne Hf; rewrite (proj2 (Z.eqb_neq _ _) Hne), Hf; reflexivity|].
  split; [intros Ht; rewrite Ht;
          unfold year_in_range in Ht; apply andb_true_iff in Ht as [Ht _];
          apply Z.ltb_lt in Ht; rewrite (proj2 (Z.eqb_neq _ _)) by lia; reflexivity|].
  split; [intros Hr; replace (0 <? Runtime movie) with false
            by (symmetry; apply Z.ltb_ge; lia); reflexivity|].
  intros Hr; replace (0 <? Runtime movie) with true
    by (symmetry; apply Z.ltb_lt; lia); reflexivity.
Qed.

Lemma ValidateMovie_scalar_messages_witness :
  Errors (ValidateMovie 2026 NewValidator (mkMovie 1 0 EmptyString 0 0 None 1)) !! "title"
    = Some "cannot be empty" /\
  Errors (ValidateMovie 2026 NewValidator (mkMovie 1 0 long_title 1997 195 None 1)) !! "title"
    = Some "must be under 500 characters" /\
  Errors (ValidateMovie 2026 NewValidator (mkMovie 1 0 "Titanic" 1997 195 None 1)) !! "title"
    = None /\
  Errors (ValidateMovie 2026 NewValidator (mkMovie 1 0 EmptyString 0 0 None 1)) !! "year"
    = Some "cannpt be empty" /\
  Errors (ValidateMovie 2026 NewValidator (mkMovie 1 0 "Titanic" 1700 195 None 1)) !! "year"
    = Some "must be between 1888 and today" /\
  Errors (ValidateMovie 2026 NewValidator (mkMovie 1 0 "Titanic" 1997 195 None 1)) !! "year"
    = None /\
  Errors (ValidateMovie 2026 NewValidator (mkMovie 1 0 EmptyString 0 0 None 1)) !! "runtime"
    = Some "must be a positive integer" /\
  Errors (ValidateMovie 2026 NewValidator (mkMovie 1 0 "Titanic" 1997 195 None 1)) !! "runtime"
    = None.
Proof.
  destruct (ValidateMovie_scalar_messages 2026 (mkMovie 1 0 EmptyString 0 0 None 1))
    as [A1 [_ [_ [A4 [_ [_ [A7 _]]]]]]].
  destruct (ValidateMovie_scalar_messages 2026 (mkMovie 1 0 long_title 1997 195 None 1))
    as [_ [B2 _]].
  destruct (ValidateMovie_scalar_messages 2026 (mkMovie 1 0 "Titanic" 1997 195 None 1))
    as [_ [_ [C3 [_ [_ [C6 [_ C8]]]]]]].
  destruct (ValidateMovie_scalar_messages 2026 (mkMovie 1 0 "Titanic" 1700 195 None 1))
    as [_ [_ [_ [_ [D5 _]]]]].
  split; [apply A1; reflexivity|].
  split; [apply B2; [simpl; discriminate|vm_compute; lia]|].
  split; [apply C3; [simpl; discriminate|simpl; lia]|].
  split; [apply A4; reflexivity|].
  split; [apply D5; [simpl; lia|reflexivity]|].
  split; [apply C6; reflexivity|].
  split; [apply A7; simpl; lia|].
  apply C8. simpl. lia.
Defined.

(** X10. On a fresh validator, the message [ValidateMovie] leaves on
    ["genres"] follows the order of its rules: a nil slice or one holding
    an empty string gets ["cannot be empty"]; otherwise an empty slice or
    one of more than 5 entries gets ["must have between 1 and 5 genres"];
    otherwise repeated entries get ["must be unique"]; 1 to 5 distinct
    non-empty entries get nothing. *)
Theorem ValidateMovie_genres_messages (now_year : Z) (movie : Movie) :
  (Genres movie = None ->
   Errors (ValidateMovie now_year NewValidator movie) !! "genres" = Some "cannot be empty") /\
  (forall l, Genres movie = Some l -> EmptyString ∈ l ->
   Errors (ValidateMovie now_year NewValidator movie) !! "genres" = Some "cannot be empty") /\
  (forall l, Genres movie = Some l -> EmptyString ∉ l ->
   (length l = 0 \/ 5 < length l)%nat ->
   Errors (ValidateMovie now_year NewValidator movie) !! "genres"
   = Some "must have between 1 and 5 genres") /\
  (forall l, Genres movie = Some l -> EmptyString ∉ l -> (1 <= length l <= 5)%nat ->
   ~ NoDup l ->
   Errors (ValidateMovie now_year NewValidator movie) !! "genres" = Some "must be unique") /\
  (forall l, Genres movie = Some l -> EmptyString ∉ l -> (1 <= length l <= 5)%nat ->
   NoDup l ->
   Errors (ValidateMovie now_year NewValidator movie) !! "genres" = None).
Proof.
  rewrite !ValidateMovie_new_lookup. unfold movie_rules. simpl.
  rewrite !andb_false_r, !andb_true_r.
  unfold CheckForEmptyStrings, Unique, genres_len.
  split; [intros Hg; rewrite Hg; reflexivity|].
  assert (Hsome : forall l : list string, bool_decide (Some l <> None) = true)
    by (intros l; apply bool_decide_true; discriminate).
  split; [|split; [|split]]; intros l Hg; rewrite Hg, Hsome; simpl.
  - intros Hin.
    replace (forallb (fun s => negb (String.eqb s EmptyString)) l) with false; [reflexivity|].
    symmetry. apply Bool.not_true_iff_false. rewrite no_empty_strings_iff. tauto.
  - intros Hnin Hlen. rewrite (proj2 (no_empty_strings_iff l) Hnin). simpl.
    replace ((0 <? Z.of_nat (length l)) && (Z.of_nat (length l) <=? 5)) with false;
      [reflexivity|].
    symmetry. apply andb_false_iff.
    destruct Hlen as [H0|H5]; [left; apply Z.ltb_ge; lia|right; apply Z.leb_gt; lia].
  - intros Hnin Hlen Hdup. rewrite (proj2 (no_empty_strings_iff l) Hnin). simpl.
    replace ((0 <? Z.of_nat (length l)) && (Z.of_nat (length l) <=? 5)) with true
      by (symmetry; apply andb_true_iff; split; [apply Z.ltb_lt|apply Z.leb_le]; lia).
    simpl. replace (unique_list l) with false; [reflexivity|].
    symmetry. apply Bool.not_true_iff_false. rewrite unique_list_iff. exact Hdup.
  - intros Hnin Hlen Hnd. rewrite (proj2 (no_empty_strings_iff l) Hnin). simpl.
    replace ((0 <? Z.of_nat (length l)) && (Z.of_nat (length l) <=? 5)) with true
      by (symmetry; apply andb_true_iff; split; [apply Z.ltb_lt|apply Z.leb_le]; lia).
    rewrite (proj2 (unique_list_iff l) Hnd). reflexivity.
Qed.

Lemma ValidateMovie_genres_messages_witness :
  Errors (ValidateMovie 2026 NewValidator (mkMovie 1 0 "Titanic" 1997 195 None 1))
    !! "genres" = Some "cannot be empty" /\
  Errors (ValidateMovie 2026 NewValidator
            (mkMovie 1 0 "Titanic" 1997 195 (Some [EmptyString]) 1))
    !! "genres" = Some "cannot be empty" /\
  Errors (ValidateMovie 2026 NewValidator (mkMovie 1 0 "Titanic" 1997 195 (Some []) 1))
    !! "genres" = Some "must have between 1 and 5 genres" /\
  Errors (ValidateMovie 2026 NewValidator
            (mkMovie 1 0 "Titanic" 1997 195 (Some ["drama"; "drama"]) 1))
    !! "genres" = Some "must be unique" /\
  Errors (ValidateMovie 2026 NewValidator
            (mkMovie 1 0 "Titanic" 1997 195 (Some ["drama"]) 1))
    !! "genres" = None.
Proof.
  split; [apply (ValidateMovie_genres_messages 2026
                   (mkMovie 1 0 "Titanic" 1997 195 None 1)); reflexivity|].
  split; [apply (proj1 (proj2 (ValidateMovie_genres_messages 2026
                   (mkMovie 1 0 "Titanic" 1997 195 (Some [EmptyString]) 1))) [EmptyString]);
          [reflexivity|apply list_elem_of_singleton; reflexivity]|].
  split; [apply (proj1 (proj2 (proj2 (ValidateMovie_genres_messages 2026
                   (mkMovie 1 0 "Titanic" 1997 195 (Some []) 1)))) []);
          [reflexivity|apply not_elem_of_nil|simpl; lia]|].
  split; [apply (proj1 (proj2 (proj2 (proj2 (ValidateMovie_genres_messages 2026
                   (mkMovie 1 0 "Titanic" 1997 195 (Some ["drama"; "drama"]) 1)))))
                   ["drama"; "drama"]);
          [reflexivity|set_solver|simpl; lia|
           rewrite NoDup_cons; intros [Hn _]; apply Hn; apply list_elem_of_singleton; reflexivity]|].
  apply (proj2 (proj2 (proj2 (proj2 (ValidateMovie_genres_messages 2026
           (mkMovie 1 0 "Titanic" 1997 195 (Some ["drama"]) 1))))) ["drama"]);
    [reflexivity|set_solver|simpl; lia|apply NoDup_singleton].
Defined.

(** X11. [ValidateMovie] writes only the fields ["title"], ["year"],
    ["runtime"] and ["genres"], and never replaces or removes a message
    already in the validator; so a validator that is not valid stays
    not valid. *)
Theorem ValidateMovie_frame (now_year : Z) (v : Validator) (movie : Movie) (key : string) :
  (key <> "title" -> key <> "year" -> key <> "runtime" -> key <> "genres" ->
   Errors (ValidateMovie now_year v movie) !! key = Errors v !! key) /\
  (forall x, Errors v !! key = Some x ->
   Errors (ValidateMovie now_year v movie) !! key = Some x) /\
  (Valid v = false -> Valid (ValidateMovie now_year v movie) = false).
Proof.
  rewrite ValidateMovie_rules. split; [|split].
  - intros H1 H2 H3 H4. rewrite run_checks_lookup.
    destruct (Errors v !! key); [reflexivity|].
    unfold movie_rules. cbn [first_failure].
    rewrite (proj2 (String.eqb_neq _ _) (not_eq_sym H1)),
      (proj2 (String.eqb_neq _ _) (not_eq_sym H2)),
      (proj2 (String.eqb_neq _ _) (not_eq_sym H3)),
      (proj2 (String.eqb_neq _ _) (not_eq_sym H4)), !andb_false_r.
    reflexivity.
  - intros x Hx. rewrite run_checks_lookup, Hx. reflexivity.
  - intros Hv. apply Bool.not_true_iff_false. intros Hv'.
    apply Bool.not_true_iff_false in Hv. apply Hv.
    apply Valid_empty_iff. intros k.
    pose proof (proj1 (Valid_empty_iff _) Hv' k) as Hk.
    rewrite run_checks_lookup in Hk.
    destruct (Errors v !! k); [discriminate|reflexivity].
Qed.

Lemma ValidateMovie_frame_witness :
  Errors (ValidateMovie 2026 (mkValidator {[ "email" := "must be valid" ]}) titanic)
    !! "email" = Some "must be valid" /\
  (forall x, Errors (mkValidator {[ "email" := "must be valid" ]}) !! "email" = Some x ->
   Errors (ValidateMovie 2026 (mkValidator {[ "email" := "must be valid" ]}) titanic)
     !! "email" = Some x) /\
  (Valid (mkValidator {[ "email" := "must be valid" ]}) = false ->
   Valid (ValidateMovie 2026 (mkValidator {[ "email" := "must be valid" ]}) titanic) = false).
Proof.
  destruct (ValidateMovie_frame 2026 (mkValidator {[ "email" := "must be valid" ]})
              titanic "email") as [H1 [H2 H3]].
  split; [rewrite H1 by discriminate; reflexivity|].
  split; [exact H2|exact H3].
Defined.

(** ** More on [SetENV] *)

Lemma Cut_key_value sep (k v : string) :
  has_char sep k = false -> Cut sep (String.append k (String sep v)) = (k, v, true).
Proof.
  induction k as [|c k IH]; simpl.
  - intros _. rewrite Ascii.eqb_refl. reflexivity.
  - intros Hk. apply orb_false_iff in Hk as [Hc Hk].
    rewrite Hc, (IH Hk). reflexivity.
Qed.

Lemma set_line_other (env : gmap string string) line k :
  fst (fst (Cut equals_sign line)) <> k -> set_line env line !! k = env !! k.
Proof.
  unfold set_line. destruct (Cut equals_sign line) as [[name value] found]. simpl.
  intros Hne. unfold Setenv.
  destruct (_ || _ || _ || _); [reflexivity|].
  apply lookup_insert_ne. exact Hne.
Qed.

Lemma fold_set_line_other (env : gmap string string) lines k :
  Forall (fun line => fst (fst (Cut equals_sign line)) <> k) lines ->
  fold_left set_line lines env !! k = env !! k.
Proof.
  revert env. induction lines as [|line lines IH]; intros env; simpl; [reflexivity|].
  intros Hall. apply Forall_cons in Hall as [Hl Hall].
  rewrite (IH _ Hall). apply set_line_other. exact Hl.
Qed.

(** X12. When the scanned lines of [.env] contain a line [k=v] with a
    valid key [k] (non-empty, without [=] or NUL) and a value [v] without
    NUL, and no later line names [k], [SetENV] leaves [k] set to [v]: the
    last assignment wins, and [v] is everything after the first [=], so
    it may itself contain [=]. *)
Theorem SetENV_last_assignment (text : string) (env env' : gmap string string)
    (pre post : list string) (k v : string) :
  ScanLines text = Some (pre ++ [String.append k (String equals_sign v)] ++ post) ->
  k <> EmptyString -> has_char equals_sign k = false -> has_char nul k = false ->
  has_char nul v = false ->
  Forall (fun line => fst (fst (Cut equals_sign line)) <> k) post ->
  SetENV (Some text) env = Some env' -> env' !! k = Some v.
Proof.
  intros Hscan Hk Heq Hnk Hnv Hpost Hset.
  unfold SetENV in Hset. rewrite Hscan in Hset. injection Hset as <-.
  rewrite fold_left_app. simpl. rewrite (fold_set_line_other _ _ _ Hpost).
  unfold set_line. rewrite (Cut_key_value _ _ _ Heq). unfold Setenv.
  rewrite (proj2 (String.eqb_neq _ _) Hk), Heq, Hnk, Hnv. simpl.
  apply lookup_insert_eq.
Qed.

Lemma SetENV_last_assignment_witness :
  exists env', SetENV (Some env_text) ∅ = Some env' /\ env' !! "dsn" = Some "second".
Proof.
  eexists. split; [reflexivity|].
  apply (SetENV_last_assignment env_text ∅ _
           ["dsn=postgres://u:p@h/db?sslmode=disable"; "PORT"] [] "dsn" "second");
    [vm_compute; reflexivity|discriminate|reflexivity|reflexivity|reflexivity|
     constructor|reflexivity].
Defined.

(** X13. A variable that no line of [.env] names keeps the value it had
    before [SetENV]. *)
Theorem SetENV_untouched (text : string) (env env' : gmap string string)
    (lines : list string) (k : string) :
  ScanLines text = Some lines ->
  Forall (fun line => fst (fst (Cut equals_sign line)) <> k) lines ->
  SetENV (Some text) env = Some env' -> env' !! k = env !! k.
Proof.
  intros Hscan Hall Hset. unfold SetENV in Hset. rewrite Hscan in Hset.
  injection Hset as <-. exact (fold_set_line_other _ _ _ Hall).
Qed.

Lemma SetENV_untouched_witness :
  exists env', SetENV (Some env_text) (<["HOME" := "/root"]> ∅) = Some env' /\
               env' !! "HOME" = Some "/root".
Proof.
  eexists. split; [reflexivity|].
  rewrite <- (lookup_insert_eq (∅ : gmap string string) "HOME" "/root").
  apply (SetENV_untouched env_text _ _
           ["dsn=postgres://u:p@h/db?sslmode=disable"; "PORT"; "dsn=second"] "HOME");
    [vm_compute; reflexivity| |reflexivity].
  repeat constructor; vm_compute; discriminate.
Defined.
